(** * The Sphinx configuration file [conf.py] of the C++ Contracts documentation

    [conf.py] is a Python module that the documentation builder executes once
    at start-up; the module namespace left behind by that execution is the
    configuration record.  The file is embedded here as the list of its
    statements ([conf]), together with the part of Python's execution model
    that module-level code of this shape exercises: [import] statements, which
    consult and fill the interpreter's module cache, and simple assignments,
    whose right-hand sides are expressions evaluated against the namespace and
    the interpreter.  Expression forms that reach outside the file (names,
    attribute references, calls) are part of the expression language, so that
    the statements about what the file does not do have content. *)

From Stdlib Require Import Ascii String.
From stdpp Require Import base strings list gmap.

Open Scope string_scope.

Scheme All for list.
Scheme All for prod.

(** ** Syntax *)

Inductive expr : Type :=
| EStr (s : string)                      (* 'text' *)
| EBool (b : bool)                       (* True, False *)
| ENone                                  (* None *)
| EList (es : list expr)                 (* [e, ...] *)
| ETuple (es : list expr)                (* (e, ...) *)
| EDict (items : list (expr * expr))     (* {k: v, ...} *)
| EName (x : string)                     (* x *)
| EAttr (e : expr) (a : string)          (* e.a *)
| ECall (f : expr) (args : list expr).   (* f(e, ...) *)

Inductive stmt : Type :=
| SImport (m : string)                   (* import m *)
| SAssign (x : string) (e : expr).       (* x = e *)

(** ** Values *)

Inductive value : Type :=
| VStr (s : string)
| VBool (b : bool)
| VNone
| VList (vs : list value)
| VTuple (vs : list value)
| VDict (items : list (value * value))   (* insertion-ordered, keys distinct *)
| VModule (m : string)                   (* the module object cached as m *)
| VFunc (q : string).                    (* a built-in function or method *)

Inductive exn : Type :=
| ImportError (m : string)
| NameError (x : string)
| AttributeError (a : string)
| TypeError.

Inductive result (A : Type) : Type :=
| Ok (a : A)
| Raise (e : exn).
Arguments Ok {A} a.
Arguments Raise {A} e.

Definition bind {A B : Type} (r : result A) (k : A → result B) : result B :=
  match r with
  | Ok a => k a
  | Raise e => Raise e
  end.

Notation "'do' x <- r ; k" := (bind r (fun x => k))
  (at level 10, x name, r at level 100, k at level 200).

(** ** The interpreter a module is executed by

    Everything a running module can observe besides its own namespace:
    the module cache ([sys.modules]), which modules the import machinery
    can locate, the built-in names, and what attribute references and calls
    on objects give (this is where [sys.argv], [os.environ], [os.getcwd()],
    [open(...)] and the like live). *)

Record world : Type := World {
  sys_modules : list string;
  importable : string → bool;
  builtins : string → option value;
  getattr : value → string → result value;
  call : value → list value → result value
}.

(** Entering [m] into the module cache.  The modules that [m] imports in
    its turn when it is first loaded are not tracked: of the cache, only
    which modules it holds at least is relied upon. *)
Definition cache_module (m : string) (w : world) : world :=
  {| sys_modules := sys_modules w ++ [m];
     importable := importable w;
     builtins := builtins w;
     getattr := getattr w;
     call := call w |}.

(** ** Dictionaries *)

(** Lists and dictionaries are unhashable and cannot be dictionary keys. *)
Fixpoint hashable (v : value) : bool :=
  match v with
  | VList _ | VDict _ => false
  | VTuple vs => forallb hashable vs
  | _ => true
  end.

(** Equality of keys ([==] on hashable values is structural). *)
Fixpoint value_eqb (a b : value) : bool :=
  match a, b with
  | VStr s, VStr t => String.eqb s t
  | VBool x, VBool y => Bool.eqb x y
  | VNone, VNone => true
  | VList xs, VList ys | VTuple xs, VTuple ys =>
      (fix go (xs ys : list value) : bool :=
         match xs, ys with
         | [], [] => true
         | x :: xs, y :: ys => value_eqb x y && go xs ys
         | _, _ => false
         end) xs ys
  | VDict xs, VDict ys =>
      (fix go (xs ys : list (value * value)) : bool :=
         match xs, ys with
         | [], [] => true
         | (k, x) :: xs, (l, y) :: ys => value_eqb k l && value_eqb x y && go xs ys
         | _, _ => false
         end) xs ys
  | VModule m, VModule n => String.eqb m n
  | VFunc p, VFunc q => String.eqb p q
  | _, _ => false
  end.

(** [d[k] = v]: an existing key keeps its position and gets the new value,
    a new key goes to the end. *)
Fixpoint dict_set (d : list (value * value)) (k v : value) : list (value * value) :=
  match d with
  | [] => [(k, v)]
  | (k', v') :: d => if value_eqb k' k then (k', v) :: d else (k', v') :: dict_set d k v
  end.

Fixpoint dict_get (d : list (value * value)) (k : value) : option value :=
  match d with
  | [] => None
  | (k', v') :: d => if value_eqb k' k then Some v' else dict_get d k
  end.

(** A dictionary display first evaluates its items and then enters them,
    in order, into a new dictionary; entering an unhashable key raises
    [TypeError]. *)
Fixpoint dict_build (d items : list (value * value)) : result (list (value * value)) :=
  match items with
  | [] => Ok d
  | (k, v) :: items =>
      if hashable k then dict_build (dict_set d k v) items else Raise TypeError
  end.

(** ** Evaluation of expressions *)

Fixpoint eval (w : world) (ns : gmap string value) (e : expr) : result value :=
  match e with
  | EStr s => Ok (VStr s)
  | EBool b => Ok (VBool b)
  | ENone => Ok VNone
  | EList es =>
      do vs <- (fix go (es : list expr) : result (list value) :=
                  match es with
                  | [] => Ok []
                  | e :: es => do v <- eval w ns e; do vs <- go es; Ok (v :: vs)
                  end) es;
      Ok (VList vs)
  | ETuple es =>
      do vs <- (fix go (es : list expr) : result (list value) :=
                  match es with
                  | [] => Ok []
                  | e :: es => do v <- eval w ns e; do vs <- go es; Ok (v :: vs)
                  end) es;
      Ok (VTuple vs)
  | EDict items =>
      do kvs <- (fix go (items : list (expr * expr))
                   : result (list (value * value)) :=
                   match items with
                   | [] => Ok []
                   | (k, e) :: items =>
                       do kv <- eval w ns k;
                       do v <- eval w ns e;
                       do kvs <- go items;
                       Ok ((kv, v) :: kvs)
                   end) items;
      do d <- dict_build [] kvs;
      Ok (VDict d)
  | EName x =>
      match ns !! x with
      | Some v => Ok v
      | None =>
          match builtins w x with
          | Some v => Ok v
          | None => Raise (NameError x)
          end
      end
  | EAttr e a => do v <- eval w ns e; getattr w v a
  | ECall f args =>
      do fv <- eval w ns f;
      do vs <- (fix go (es : list expr) : result (list value) :=
                  match es with
                  | [] => Ok []
                  | e :: es => do v <- eval w ns e; do vs <- go es; Ok (v :: vs)
                  end) args;
      call w fv vs
  end.

(** ** Execution of statements *)

(** [import m] finds the module in the cache, or else has the import
    machinery locate it and enter it into the cache. *)
Definition import_module (m : string) (w : world) : result world :=
  if bool_decide (m ∈ sys_modules w) then Ok w
  else if importable w m then Ok (cache_module m w)
  else Raise (ImportError m).

Definition exec (s : stmt) (st : world * gmap string value)
    : result (world * gmap string value) :=
  let '(w, ns) := st in
  match s with
  | SImport m => do w' <- import_module m w; Ok (w', <[m := VModule m]> ns)
  | SAssign x e => do v <- eval w ns e; Ok (w, <[x := v]> ns)
  end.

Fixpoint exec_prog (p : list stmt) (st : world * gmap string value)
    : result (world * gmap string value) :=
  match p with
  | [] => Ok st
  | s :: p => do st' <- exec s st; exec_prog p st'
  end.

(** ** The file *)

Definition conf : list stmt :=
  [ SImport "sys";
    SImport "os";
    SAssign "project" (EStr "C++ Contracts Documentation");
    SAssign "copyright" (EStr "2025, EFCS LLC");
    SAssign "author" (EStr "Eric Fiselier");
    SAssign "release" (EStr "1.0");
    SAssign "extensions"
      (EList [EStr "sphinx.ext.intersphinx"; EStr "sphinx.ext.todo"]);
    SAssign "templates_path" (EList [EStr "_templates"]);
    SAssign "exclude_patterns"
      (EList [EStr "_build"; EStr "Thumbs.db"; EStr ".DS_Store"]);
    SAssign "pygments_style" (EStr "friendly");
    SAssign "html_theme" (EStr "haiku");
    SAssign "html_static_path" (EList [EStr "_static"]);
    SAssign "html_theme_options" (EDict [(EStr "nosidebar", EBool false)]);
    SAssign "html_theme_path" (EList [EStr "_themes"]);
    SAssign "html_show_sourcelink" (EBool true);
    SAssign "html_show_sphinx" (EBool true);
    SAssign "intersphinx_mapping"
      (EDict [(EStr "python", ETuple [EStr "https://docs.python.org/3/"; ENone]);
              (EStr "llvm", ETuple [EStr "https://llvm.org/docs/"; ENone])]);
    SAssign "todo_include_todos" (EBool true) ].

(** Loading the configuration: the file is executed in a fresh namespace. *)
Definition load (w : world) : result (world * gmap string value) :=
  exec_prog conf (w, ∅).

(** The [n+1]-st evaluation of the file by an interpreter that starts in
    state [w] and has evaluated it [n] times before. *)
Fixpoint reload (n : nat) (w : world) : result (world * gmap string value) :=
  match n with
  | 0 => load w
  | S n => do st <- reload n w; load st.1
  end.

(** ** Interpreters *)

Definition module_available (w : world) (m : string) : bool :=
  bool_decide (m ∈ sys_modules w) || importable w m.

(** [sys] and [os] belong to the standard library. *)
Definition stdlib_available (w : world) : Prop :=
  module_available w "sys" = true ∧ module_available w "os" = true.

(** An interpreter right after start-up in working directory [cwd]: [sys]
    and [builtins] are in the cache, [os] is on the module search path, the
    process arguments and the environment are visible through [sys] and
    [os]. *)
Definition interpreter (cwd : string) : world :=
  {| sys_modules := ["sys"; "builtins"];
     importable := λ m, bool_decide (m ∈ ["os"; "posixpath"; "stat"]);
     builtins := λ x, if String.eqb x "len" then Some (VFunc "len") else None;
     getattr := λ v a,
       match v with
       | VModule "sys" =>
           if String.eqb a "argv" then Ok (VList [VStr "sphinx-build"])
           else Raise (AttributeError a)
       | VModule "os" =>
           if String.eqb a "environ" then Ok (VDict [(VStr "HOME", VStr "/root")])
           else if String.eqb a "getcwd" then Ok (VFunc "os.getcwd")
           else Raise (AttributeError a)
       | _ => Raise (AttributeError a)
       end;
     call := λ f vs,
       match f, vs with
       | VFunc "os.getcwd", [] => Ok (VStr cwd)
       | _, _ => Raise TypeError
       end |}.

Definition startup : world := interpreter "/root/docs".

Definition record_of (r : result (world * gmap string value)) : gmap string value :=
  match r with
  | Ok st => st.2
  | Raise _ => ∅
  end.

(** The record the file leaves behind when loaded at start-up. *)
Definition conf_record : gmap string value := record_of (load startup).

(** ** Static classification of the file's statements *)

(** Constants and displays of constants. *)
Fixpoint is_literal (e : expr) : bool :=
  match e with
  | EStr _ | EBool _ | ENone => true
  | EList es | ETuple es => forallb is_literal es
  | EDict items => forallb (λ kv, is_literal kv.1 && is_literal kv.2) items
  | EName _ | EAttr _ _ | ECall _ _ => false
  end.

(** The largest number of entries of a mapping display inside [e]. *)
Fixpoint mapping_width (e : expr) : nat :=
  match e with
  | EList es | ETuple es => foldr (λ e n, mapping_width e `max` n) 0 es
  | EDict items =>
      foldr (λ kv n, (mapping_width kv.1 `max` mapping_width kv.2) `max` n)
        (length items) items
  | EAttr e _ => mapping_width e
  | ECall f args => foldr (λ e n, mapping_width e `max` n) (mapping_width f) args
  | _ => 0
  end.

(** The name a statement binds in the module namespace. *)
Definition target (s : stmt) : string :=
  match s with
  | SImport m => m
  | SAssign x _ => x
  end.

(** Imports, and assignments of literals. *)
Definition declarative (s : stmt) : bool :=
  match s with
  | SImport _ => true
  | SAssign _ e => is_literal e
  end.

(** Modelled from the spec: the option names of the external documentation
    tool that the interface table of the specification lists (the tool's own
    registry of option names is not part of this repository). *)
Definition recognized_options : list string :=
  [ "project"; "author"; "copyright"; "release";
    "extensions";
    "templates_path"; "html_static_path"; "html_theme_path"; "exclude_patterns";
    "html_theme"; "pygments_style";
    "html_theme_options"; "html_show_sourcelink"; "html_show_sphinx";
    "intersphinx_mapping";
    "todo_include_todos" ].

(** A statement that assigns a literal (of which a mapping display has at
    most two entries) to a recognized option name. *)
Definition assigns_option (s : stmt) : bool :=
  match s with
  | SImport _ => false
  | SAssign x e =>
      bool_decide (x ∈ recognized_options) && is_literal e
      && bool_decide (mapping_width e ≤ 2)%nat
  end.

(** ** Paths, patterns and names *)

Definition chars (s : string) : list ascii := String.list_ascii_of_string s.

(** Absolute under the POSIX or the Windows convention: a leading separator,
    or a drive letter. *)
Definition is_absolute (p : string) : bool :=
  match chars p with
  | c :: rest =>
      bool_decide (c = "/"%char) || bool_decide (c = "\"%char)
      || match rest with
         | d :: _ => bool_decide (d = ":"%char)
         | [] => false
         end
  | [] => false
  end.

Definition ends_with_slash (p : string) : bool :=
  match last (chars p) with
  | Some c => bool_decide (c = "/"%char)
  | None => false
  end.

(** [os.path.join dir p] for POSIX paths. *)
Definition path_join (dir p : string) : string :=
  if String.prefix "/" p then p
  else if bool_decide (dir = "") || ends_with_slash dir then dir +:+ p
  else dir +:+ "/" +:+ p.

(** A single path component that is neither empty nor [.] nor [..]. *)
Definition simple_name (p : string) : bool :=
  bool_decide (p ∉ [""; "."; ".."])
  && forallb (λ c, bool_decide (c ∉ ["/"%char; "\"%char])) (chars p).

(** The characters with a special meaning in a glob pattern. *)
Definition glob_special (c : ascii) : bool :=
  bool_decide (c ∈ ["*"%char; "?"%char; "["%char; "]"%char]).

Definition has_wildcard (p : string) : bool := existsb glob_special (chars p).

(** [sub] occurs in [s]. *)
Fixpoint mentions (sub s : string) : bool :=
  String.prefix sub s
  || match s with
     | EmptyString => false
     | String _ s' => mentions sub s'
     end.

Definition is_url (u : string) : bool :=
  String.prefix "http://" u || String.prefix "https://" u.


(** No reference to a module or a function anywhere inside the value. *)
Fixpoint is_data (v : value) : bool :=
  match v with
  | VStr _ | VBool _ | VNone => true
  | VList vs | VTuple vs => forallb is_data vs
  | VDict items => forallb (λ kv, is_data kv.1 && is_data kv.2) items
  | VModule _ | VFunc _ => false
  end.

(** Auxiliary names for the loops inside [eval]. *)
Definition eval_list (w : world) (ns : gmap string value)
    : list expr → result (list value) :=
  fix go (es : list expr) : result (list value) :=
    match es with
    | [] => Ok []
    | e :: es => do v <- eval w ns e; do vs <- go es; Ok (v :: vs)
    end.

Definition eval_items (w : world) (ns : gmap string value)
    : list (expr * expr) → result (list (value * value)) :=
  fix go (items : list (expr * expr)) : result (list (value * value)) :=
    match items with
    | [] => Ok []
    | (k, e) :: items =>
        do kv <- eval w ns k;
        do v <- eval w ns e;
        do kvs <- go items;
        Ok ((kv, v) :: kvs)
    end.

(** The modules named by the [import] statements of a program can be had. *)
Definition imports_ok (w : world) (p : list stmt) : Prop :=
  ∀ m, SImport m ∈ p → module_available w m = true.

Definition namespace_of (r : result (world * gmap string value))
    : result (gmap string value) :=
  do st <- r; Ok st.2.

(** ** Reading a declarative statement by itself *)

(** The value a declarative statement binds: the module object for an
    import, and for an assignment the value its literal has with an empty
    namespace (in the start-up interpreter, or in any other). *)
Definition bound_value (s : stmt) : result value :=
  match s with
  | SImport m => Ok (VModule m)
  | SAssign _ e => eval startup ∅ e
  end.

(** A declarative statement whose literal evaluates without exception. *)
Definition static_ok (s : stmt) : bool :=
  declarative s
  && match bound_value s with
     | Ok _ => true
     | Raise _ => false
     end.

Definition static_binding (s : stmt) : string * value :=
  (target s,
   match bound_value s with
   | Ok v => v
   | Raise _ => VNone
   end).

(** Binding a sequence of names in a namespace, one after the other. *)
Definition bind_all (ns : gmap string value) (items : list (string * value))
    : gmap string value :=
  foldl (λ ns kv, <[kv.1 := kv.2]> ns) ns items.

(** The last component of a dotted module path: [todo] for
    [sphinx.ext.todo]. *)
Fixpoint short_name (s : string) : string :=
  match s with
  | EmptyString => EmptyString
  | String _ s' => if mentions "." s then short_name s' else s
  end.

(** An option of the extension [e]: its name is the short name of the
    extension, an underscore, and more. *)
Definition option_of_extension (e x : string) : bool :=
  String.prefix (short_name e +:+ "_") x.

(** The values the file gives its options: text, a flag, a list of text,
    or a mapping from text to flags or to pairs of text and [None]. *)
Definition is_str (v : value) : bool :=
  match v with
  | VStr _ => true
  | _ => false
  end.

Definition option_shaped (v : value) : bool :=
  match v with
  | VStr _ | VBool _ => true
  | VList vs => forallb is_str vs
  | VDict items =>
      forallb (λ kv, is_str kv.1
                     && match kv.2 with
                        | VBool _ | VTuple [VStr _; VNone] => true
                        | _ => false
                        end) items
  | _ => false
  end.

(** * Properties of the execution model *)

Section Evaluation.
Implicit Types (w : world) (ns : gmap string value) (e : expr).

Lemma eval_EList w ns es :
  eval w ns (EList es) = do vs <- eval_list w ns es; Ok (VList vs).
Proof. reflexivity. Qed.

Lemma eval_ETuple w ns es :
  eval w ns (ETuple es) = do vs <- eval_list w ns es; Ok (VTuple vs).
Proof. reflexivity. Qed.

Lemma eval_EDict w ns items :
  eval w ns (EDict items)
  = do kvs <- eval_items w ns items; do d <- dict_build [] kvs; Ok (VDict d).
Proof. reflexivity. Qed.

(** A literal evaluates to the same thing in every interpreter and every
    namespace. *)
Lemma eval_literal e :
  is_literal e = true →
  ∀ w ns w' ns', eval w ns e = eval w' ns' e.
Proof.
  induction e as [s|b| |es IH|es IH|items IH|x|e IH a|f IHf args IH];
    intros Hlit w ns w' ns'; try done.
  - rewrite !eval_EList. f_equal.
    simpl in Hlit. induction IH as [|e He es Hes IHes]; [done|].
    apply andb_prop in Hlit as [H1 H2]. simpl.
    by rewrite (He H1 w ns w' ns'), (IHes H2).
  - rewrite !eval_ETuple. f_equal.
    simpl in Hlit. induction IH as [|e He es Hes IHes]; [done|].
    apply andb_prop in Hlit as [H1 H2]. simpl.
    by rewrite (He H1 w ns w' ns'), (IHes H2).
  - rewrite !eval_EDict. f_equal.
    simpl in Hlit.
    induction IH as [|? [k Hk v Hv] items Hitems IHitems]; [done|].
    apply andb_prop in Hlit as [H1 H2]. apply andb_prop in H1 as [H1k H1v].
    simpl.
    by rewrite (Hk H1k w ns w' ns'), (Hv H1v w ns w' ns'), (IHitems H2).
Qed.
End Evaluation.

Section Execution.
Implicit Types (w : world) (ns : gmap string value) (p : list stmt).

Lemma import_module_cached w m :
  m ∈ sys_modules w → import_module m w = Ok w.
Proof. intros Hm. unfold import_module. by rewrite bool_decide_eq_true_2. Qed.

Lemma import_module_inv w m w' :
  import_module m w = Ok w' →
  m ∈ sys_modules w'
  ∧ (∀ x, x ∈ sys_modules w → x ∈ sys_modules w')
  ∧ importable w' = importable w.
Proof.
  unfold import_module. case_bool_decide as Hm.
  - intros [= <-]. done.
  - destruct (importable w m); [|done]. intros [= <-]. simpl.
    split_and!; [set_solver|set_solver|done].
Qed.

Lemma import_module_available w m :
  module_available w m = true → ∃ w', import_module m w = Ok w'.
Proof.
  unfold module_available, import_module. case_bool_decide; simpl.
  - eauto.
  - intros ->. eauto.
Qed.

Lemma module_available_import w m w' m' :
  import_module m w = Ok w' →
  module_available w m' = true → module_available w' m' = true.
Proof.
  intros (_ & Hsub & Himp)%import_module_inv. unfold module_available.
  rewrite Himp. intros [H|H]%orb_prop; apply orb_true_iff; [left|by right].
  apply bool_decide_eq_true. apply bool_decide_eq_true in H. auto.
Qed.

Lemma exec_prog_cons s p st :
  exec_prog (s :: p) st = do st' <- exec s st; exec_prog p st'.
Proof. reflexivity. Qed.

(** Executing a program only adds to the module cache, and leaves every
    module it imports in the cache. *)
Lemma exec_prog_cache p w ns w' ns' :
  exec_prog p (w, ns) = Ok (w', ns') →
  (∀ x, x ∈ sys_modules w → x ∈ sys_modules w')
  ∧ (∀ m, SImport m ∈ p → m ∈ sys_modules w').
Proof.
  revert w ns. induction p as [|s p IH]; intros w ns.
  - intros [= <- <-]. split; [done|]. intros m Hm. by apply elem_of_nil in Hm.
  - rewrite exec_prog_cons. destruct s as [m|x e]; simpl.
    + destruct (import_module m w) as [w1|] eqn:Hi; [|done]. simpl.
      intros [H1 H2]%IH. apply import_module_inv in Hi as (Hm & Hsub & _).
      split; [auto|]. intros m' [[= ->]|Hin]%elem_of_cons; auto.
    + destruct (eval w ns e); [|done]. simpl.
      intros [H1 H2]%IH. split; [done|].
      intros m' [[=]|Hin]%elem_of_cons; auto.
Qed.

(** With every imported module in the cache already, execution leaves the
    interpreter as it found it. *)
Lemma exec_prog_world p w ns w' ns' :
  (∀ m, SImport m ∈ p → m ∈ sys_modules w) →
  exec_prog p (w, ns) = Ok (w', ns') → w' = w.
Proof.
  revert ns. induction p as [|s p IH]; intros ns Hc.
  - by intros [= <- <-].
  - rewrite exec_prog_cons. destruct s as [m|x e]; simpl.
    + rewrite import_module_cached by (apply Hc; left). simpl.
      apply IH. intros m' Hm'. apply Hc. by right.
    + destruct (eval w ns e); [|done]. simpl.
      apply IH. intros m' Hm'. apply Hc. by right.
Qed.

(** The namespace a declarative program produces, or the exception it
    raises, is the same in every interpreter that has its modules. *)
Theorem declarative_env_independent p :
  forallb declarative p = true →
  ∀ w1 w2 ns, imports_ok w1 p → imports_ok w2 p →
  namespace_of (exec_prog p (w1, ns)) = namespace_of (exec_prog p (w2, ns)).
Proof.
  induction p as [|s p IH]; intros Hd w1 w2 ns Hw1 Hw2; [done|].
  simpl in Hd. apply andb_prop in Hd as [Hs Hp].
  rewrite !exec_prog_cons. destruct s as [m|x e]; simpl.
  - destruct (import_module_available w1 m) as [w1' E1]; [apply Hw1; left|].
    destruct (import_module_available w2 m) as [w2' E2]; [apply Hw2; left|].
    rewrite E1, E2. simpl. apply IH; [done| |].
    + intros m' Hm'. eapply module_available_import; [done|]. apply Hw1. by right.
    + intros m' Hm'. eapply module_available_import; [done|]. apply Hw2. by right.
  - rewrite (eval_literal e Hs w1 ns w2 ns).
    destruct (eval w2 ns e); [|done]. simpl. apply IH; [done| |].
    + intros m' Hm'. apply Hw1. by right.
    + intros m' Hm'. apply Hw2. by right.
Qed.
End Execution.

Section Loading.
Implicit Types (w : world) (ns : gmap string value).

Lemma load_imports w w1 w2 :
  import_module "sys" w = Ok w1 → import_module "os" w1 = Ok w2 →
  load w = Ok (w2, conf_record).
Proof.
  intros H1 H2. unfold load, conf.
  rewrite exec_prog_cons. unfold exec at 1. rewrite H1. unfold bind at 2. unfold bind at 1.
  rewrite exec_prog_cons. unfold exec at 1. rewrite H2. unfold bind at 2. unfold bind at 1.
  vm_compute. reflexivity.
Qed.

Lemma load_inv w w' ns :
  load w = Ok (w', ns) →
  ∃ w1, import_module "sys" w = Ok w1 ∧ import_module "os" w1 = Ok w'
        ∧ ns = conf_record.
Proof.
  intros H.
  destruct (import_module "sys" w) as [w1|] eqn:E1; cycle 1.
  { unfold load, conf in H. rewrite exec_prog_cons in H.
    unfold exec at 1 in H. by rewrite E1 in H. }
  destruct (import_module "os" w1) as [w2|] eqn:E2; cycle 1.
  { unfold load, conf in H. rewrite exec_prog_cons in H.
    unfold exec at 1 in H. rewrite E1 in H. unfold bind at 2 in H.
    unfold bind at 1 in H. rewrite exec_prog_cons in H.
    unfold exec at 1 in H. by rewrite E2 in H. }
  rewrite (load_imports w w1 w2 E1 E2) in H. injection H as <- <-. eauto.
Qed.

(** Loading succeeds wherever [sys] and [os] can be had, and gives
    [conf_record]. *)
Lemma load_stdlib w :
  stdlib_available w →
  ∃ w', load w = Ok (w', conf_record)
        ∧ "sys" ∈ sys_modules w' ∧ "os" ∈ sys_modules w'.
Proof.
  intros [Hsys Hos].
  destruct (import_module_available w "sys" Hsys) as [w1 E1].
  pose proof (module_available_import _ _ _ _ E1 Hos) as Hos1.
  destruct (import_module_available w1 "os" Hos1) as [w2 E2].
  exists w2. split; [by apply (load_imports w w1 w2)|].
  apply import_module_inv in E1 as (H1 & _ & _).
  apply import_module_inv in E2 as (H2 & Hsub & _). auto.
Qed.

Lemma load_cached w :
  "sys" ∈ sys_modules w → "os" ∈ sys_modules w → load w = Ok (w, conf_record).
Proof.
  intros Hsys Hos. apply (load_imports w w w); by apply import_module_cached.
Qed.


Lemma conf_record_dom : dom conf_record = list_to_set (target <$> conf).
Proof. vm_compute. reflexivity. Qed.

Lemma conf_record_names x :
  is_Some (conf_record !! x) → x ∈ target <$> conf.
Proof.
  intros H%elem_of_dom. rewrite conf_record_dom in H.
  by apply elem_of_list_to_set in H.
Qed.
End Loading.

(** * The configuration record *)

Section Record.
Implicit Types (w : world) (ns : gmap string value).

(** C1. Loading the file binds [extensions] to a list of exactly two
    strings: [sphinx.ext.intersphinx], the cross-project reference-linking
    pass, and then [sphinx.ext.todo], the TODO-list rendering pass. *)
Theorem extensions_enabled w :
  stdlib_available w →
  ∃ w' ns, load w = Ok (w', ns)
    ∧ ns !! "extensions"
      = Some (VList [VStr "sphinx.ext.intersphinx"; VStr "sphinx.ext.todo"]).
Proof.
  intros (w' & Hload & _)%load_stdlib. exists w', conf_record.
  split; [done|]. vm_compute. reflexivity.
Qed.

Lemma extensions_enabled_witness :
  stdlib_available startup
  ∧ ∃ w' ns, load startup = Ok (w', ns)
      ∧ ns !! "extensions"
        = Some (VList [VStr "sphinx.ext.intersphinx"; VStr "sphinx.ext.todo"]).
Proof.
  split; [split; reflexivity|].
  apply (extensions_enabled startup). split; reflexivity.
Defined.

(** C2. [intersphinx_mapping] is a mapping with the two entries [python]
    and [llvm]; the value of every entry is a pair of a non-empty base URL
    and either the path of a local inventory or [None]; and in both
    entries the second component is [None]. *)
Theorem intersphinx_mapping_entries w :
  stdlib_available w →
  ∃ w' ns d, load w = Ok (w', ns)
    ∧ ns !! "intersphinx_mapping" = Some (VDict d)
    ∧ Forall (λ kv, ∃ url inv, kv.2 = VTuple [VStr url; inv]
                ∧ url ≠ "" ∧ is_url url = true
                ∧ (inv = VNone ∨ ∃ path, inv = VStr path)) d
    ∧ d.*1 = [VStr "python"; VStr "llvm"]
    ∧ dict_get d (VStr "python")
      = Some (VTuple [VStr "https://docs.python.org/3/"; VNone])
    ∧ dict_get d (VStr "llvm")
      = Some (VTuple [VStr "https://llvm.org/docs/"; VNone]).
Proof.
  intros (w' & Hload & _)%load_stdlib.
  exists w', conf_record,
    [(VStr "python", VTuple [VStr "https://docs.python.org/3/"; VNone]);
     (VStr "llvm", VTuple [VStr "https://llvm.org/docs/"; VNone])].
  split; [done|]. split; [vm_compute; reflexivity|].
  split; [|by split_and!].
  repeat constructor; simpl; eexists _, VNone; split_and!; eauto; done.
Qed.

Lemma intersphinx_mapping_entries_witness :
  stdlib_available startup
  ∧ ∃ w' ns d, load startup = Ok (w', ns)
      ∧ ns !! "intersphinx_mapping" = Some (VDict d)
      ∧ Forall (λ kv, ∃ url inv, kv.2 = VTuple [VStr url; inv]
                  ∧ url ≠ "" ∧ is_url url = true
                  ∧ (inv = VNone ∨ ∃ path, inv = VStr path)) d
      ∧ d.*1 = [VStr "python"; VStr "llvm"]
      ∧ dict_get d (VStr "python")
        = Some (VTuple [VStr "https://docs.python.org/3/"; VNone])
      ∧ dict_get d (VStr "llvm")
        = Some (VTuple [VStr "https://llvm.org/docs/"; VNone]).
Proof.
  split; [split; reflexivity|].
  apply (intersphinx_mapping_entries startup). split; reflexivity.
Defined.

Lemma reload_again n w w1 ns :
  reload n w = Ok (w1, ns) →
  "sys" ∈ sys_modules w1 → "os" ∈ sys_modules w1 →
  reload (S n) w = Ok (w1, conf_record).
Proof. intros Hn Hsys Hos. simpl. rewrite Hn. simpl. by apply load_cached. Qed.

(** C3. Wherever the file can be loaded, every later evaluation by the
    same interpreter yields the record of the first one and leaves the
    interpreter in the state the first one left it in; executing the file
    once more on top of its own record changes nothing either; and an
    interpreter that had [sys] and [os] loaded from the start is itself
    left unchanged by the first evaluation. *)
Theorem load_idempotent w :
  stdlib_available w →
  ∃ w1 r, load w = Ok (w1, r)
    ∧ (∀ n, reload n w = Ok (w1, r))
    ∧ exec_prog conf (w1, r) = Ok (w1, r)
    ∧ ("sys" ∈ sys_modules w → "os" ∈ sys_modules w → w1 = w).
Proof.
  intros (w1 & Hload & Hsys & Hos)%load_stdlib. exists w1, conf_record.
  split; [done|]. split_and!.
  - induction n as [|n IH]; [done|]. by apply (reload_again n w w1 conf_record).
  - unfold conf. rewrite exec_prog_cons. unfold exec at 1.
    rewrite (import_module_cached w1 "sys" Hsys). unfold bind at 2. unfold bind at 1.
    rewrite exec_prog_cons. unfold exec at 1.
    rewrite (import_module_cached w1 "os" Hos). unfold bind at 2. unfold bind at 1.
    vm_compute. reflexivity.
  - intros Hs Ho. rewrite (load_cached w Hs Ho) in Hload. by injection Hload.
Qed.

Lemma load_idempotent_witness :
  stdlib_available startup
  ∧ ∃ w1 r, load startup = Ok (w1, r)
      ∧ (∀ n, reload n startup = Ok (w1, r))
      ∧ exec_prog conf (w1, r) = Ok (w1, r)
      ∧ ("sys" ∈ sys_modules startup → "os" ∈ sys_modules startup → w1 = startup).
Proof.
  split; [split; reflexivity|].
  apply (load_idempotent startup). split; reflexivity.
Defined.
End Record.

Section Binding.
Implicit Types (w : world) (ns : gmap string value) (p : list stmt) (x : string).

Lemma exec_prog_app p q st :
  exec_prog (p ++ q) st = do st' <- exec_prog p st; exec_prog q st'.
Proof.
  revert st. induction p as [|s p IH]; intros st; [done|].
  simpl. destruct (exec s st); simpl; [apply IH|done].
Qed.

(** A statement touches no name but its target. *)
Lemma exec_lookup_ne s w ns w' ns' x :
  exec s (w, ns) = Ok (w', ns') → x ≠ target s → ns' !! x = ns !! x.
Proof.
  destruct s as [m|y e]; simpl.
  - destruct (import_module m w); [|done]. simpl.
    intros [= <- <-] Hne. by rewrite lookup_insert_ne.
  - destruct (eval w ns e); [|done]. simpl.
    intros [= <- <-] Hne. by rewrite lookup_insert_ne.
Qed.

Lemma exec_prog_lookup_notin p w ns w' ns' x :
  exec_prog p (w, ns) = Ok (w', ns') → x ∉ target <$> p → ns' !! x = ns !! x.
Proof.
  revert w ns. induction p as [|s p IH]; intros w ns.
  - by intros [= <- <-].
  - rewrite exec_prog_cons, fmap_cons, not_elem_of_cons.
    destruct (exec s (w, ns)) as [[w1 ns1]|] eqn:Hs; [|done]. simpl.
    intros Hp [Hne Hnotin]. rewrite (IH _ _ Hp Hnotin).
    by apply (exec_lookup_ne s w ns w1).
Qed.

(** Every name of the final namespace was there at the start or is the
    target of a statement. *)
Lemma exec_prog_bound p w ns w' ns' x :
  exec_prog p (w, ns) = Ok (w', ns') →
  is_Some (ns' !! x) → is_Some (ns !! x) ∨ x ∈ target <$> p.
Proof.
  intros Hp Hx. destruct (decide (x ∈ target <$> p)) as [|Hnotin]; [by right|].
  left. by rewrite <-(exec_prog_lookup_notin p w ns w' ns' x Hp Hnotin).
Qed.

Lemma conf_targets_NoDup : NoDup (target <$> conf).
Proof. apply (bool_decide_unpack _). vm_compute. exact I. Qed.

Lemma conf_imports m : SImport m ∈ conf → m = "sys" ∨ m = "os".
Proof.
  unfold conf. rewrite !elem_of_cons, elem_of_nil.
  intros H. repeat (destruct H as [[=]|H]; auto). done.
Qed.

Lemma stdlib_imports_ok w : stdlib_available w → imports_ok w conf.
Proof. intros [Hsys Hos] m [-> | ->]%conf_imports; done. Qed.

(** No top-level name of the record has to do with the sidebar. *)
Lemma conf_record_no_sidebar x :
  mentions "sidebar" x = true → conf_record !! x = None.
Proof.
  intros Hm. destruct (conf_record !! x) as [v|] eqn:E; [|done].
  assert (x ∈ target <$> conf) as Hx by (apply conf_record_names; eauto).
  simpl in Hx. rewrite !elem_of_cons, elem_of_nil in Hx.
  repeat (destruct Hx as [-> | Hx]; [by vm_compute in Hm|]). done.
Qed.
End Binding.

Section Shape.
Implicit Types (w : world) (ns : gmap string value) (x : string).

(** The predicates on paths, patterns and names tell their cases apart. *)
Example is_absolute_cases :
  is_absolute "/usr/share/doc" = true ∧ is_absolute "C:\docs" = true
  ∧ is_absolute "_static" = false.
Proof. done. Qed.

Example path_join_cases :
  path_join "/src/docs" "_static" = "/src/docs/_static"
  ∧ path_join "/src/docs/" "_static" = "/src/docs/_static"
  ∧ path_join "/src/docs" "/etc" = "/etc".
Proof. done. Qed.

Example has_wildcard_cases :
  has_wildcard "*.rst" = true ∧ has_wildcard "draft[0-9]" = true
  ∧ has_wildcard "Thumbs.db" = false.
Proof. done. Qed.

Example mentions_cases :
  mentions "sidebar" "nosidebar" = true
  ∧ mentions "sidebar" "html_theme_options" = false.
Proof. done. Qed.

(** C4, as stated, fails: the first statement of the file is
    [import sys], which assigns nothing. *)
Lemma conf_not_only_assignments :
  conf !! 0%nat = Some (SImport "sys")
  ∧ assigns_option (SImport "sys") = false
  ∧ ¬ Forall (λ s, assigns_option s = true) conf.
Proof.
  split_and!; [done|done|].
  intros H. apply Forall_cons in H as [H _]. discriminate H.
Qed.

(** C4, amended. The file opens with the two statements [import sys] and
    [import os]; every statement after them assigns a literal, in which a
    mapping display has at most two entries, to a recognized option name. *)
Theorem conf_imports_then_assignments :
  take 2 conf = [SImport "sys"; SImport "os"]
  ∧ Forall (λ s, assigns_option s = true) (drop 2 conf).
Proof. split; [done|]. simpl. repeat constructor. Qed.

(** C5. Each of [templates_path], [html_static_path], [html_theme_path]
    and [exclude_patterns] is a list of strings, each of which is a relative
    path (absolute under neither the POSIX nor the Windows convention) made
    of a single component other than [.] and [..], so that joining it to the
    directory of the configuration file, whatever that is, gives the entry of
    that name inside this directory. *)
Theorem path_options_relative w :
  stdlib_available w →
  ∃ w' ns, load w = Ok (w', ns)
    ∧ Forall (λ o, ∃ ps, ns !! o = Some (VList (VStr <$> ps))
        ∧ Forall (λ p, is_absolute p = false
            ∧ simple_name p = true
            ∧ ∀ dir, path_join dir p
                     = dir +:+ (if bool_decide (dir = "") || ends_with_slash dir
                                then "" else "/") +:+ p) ps)
        ["templates_path"; "html_static_path"; "html_theme_path";
         "exclude_patterns"].
Proof.
  intros (w' & Hload & _)%load_stdlib. exists w', conf_record.
  split; [done|].
  assert (∀ p, String.prefix "/" p = false →
    ∀ dir, path_join dir p
           = dir +:+ (if bool_decide (dir = "") || ends_with_slash dir
                      then "" else "/") +:+ p) as Hjoin.
  { intros p Hp dir. unfold path_join. rewrite Hp.
    destruct (bool_decide (dir = "") || ends_with_slash dir); [|done].
    f_equal. }
  repeat apply Forall_cons_2; [| | | |apply Forall_nil_2].
  - exists ["_templates"]. split; [vm_compute; reflexivity|].
    repeat constructor. by apply Hjoin.
  - exists ["_static"]. split; [vm_compute; reflexivity|].
    repeat constructor. by apply Hjoin.
  - exists ["_themes"]. split; [vm_compute; reflexivity|].
    repeat constructor. by apply Hjoin.
  - exists ["_build"; "Thumbs.db"; ".DS_Store"]. split; [vm_compute; reflexivity|].
    repeat constructor; by apply Hjoin.
Qed.

Lemma path_options_relative_witness :
  stdlib_available startup
  ∧ ∃ w' ns, load startup = Ok (w', ns)
      ∧ Forall (λ o, ∃ ps, ns !! o = Some (VList (VStr <$> ps))
          ∧ Forall (λ p, is_absolute p = false
              ∧ simple_name p = true
              ∧ ∀ dir, path_join dir p
                       = dir +:+ (if bool_decide (dir = "") || ends_with_slash dir
                                  then "" else "/") +:+ p) ps)
          ["templates_path"; "html_static_path"; "html_theme_path";
           "exclude_patterns"].
Proof.
  split; [split; reflexivity|].
  apply (path_options_relative startup). split; reflexivity.
Defined.
End Shape.

Section Flags.
Implicit Types (w : world) (ns : gmap string value) (x : string).

(** C6, as stated, fails: in the record loaded at start-up no option that
    has to do with the sidebar is bound to a boolean; the only trace of the
    sidebar is inside [html_theme_options], whose value is a mapping. *)
Lemma show_sidebar_not_a_boolean_option :
  ¬ (∃ w' ns x b, load startup = Ok (w', ns)
       ∧ ns !! x = Some (VBool b) ∧ mentions "sidebar" x = true).
Proof.
  intros (w' & ns & x & b & Hload & Hx & Hm).
  apply load_inv in Hload as (_ & _ & _ & ->).
  by rewrite (conf_record_no_sidebar x Hm) in Hx.
Qed.

(** C6, amended. The record has two boolean display flags of its own,
    [html_show_sourcelink] and [html_show_sphinx], both [True]; the options
    bound to a boolean are these two and [todo_include_todos]; the sidebar
    flag is not an option of the record but the boolean entry [nosidebar],
    set to [False], of the mapping bound to [html_theme_options]. *)
Theorem display_flags w :
  stdlib_available w →
  ∃ w' ns, load w = Ok (w', ns)
    ∧ ns !! "html_show_sourcelink" = Some (VBool true)
    ∧ ns !! "html_show_sphinx" = Some (VBool true)
    ∧ ns !! "html_theme_options" = Some (VDict [(VStr "nosidebar", VBool false)])
    ∧ (∀ x b, ns !! x = Some (VBool b) →
         x ∈ ["html_show_sourcelink"; "html_show_sphinx"; "todo_include_todos"])
    ∧ (∀ x, mentions "sidebar" x = true → ns !! x = None).
Proof.
  intros (w' & Hload & _)%load_stdlib. exists w', conf_record.
  split; [done|]. split_and!; try (vm_compute; reflexivity).
  - intros x b Hx.
    assert (x ∈ target <$> conf) as Hin by (apply conf_record_names; eauto).
    simpl in Hin. rewrite !elem_of_cons, elem_of_nil in Hin.
    repeat (destruct Hin as [-> | Hin];
            [first [by vm_compute in Hx | set_solver]|]).
    done.
  - apply conf_record_no_sidebar.
Qed.

Lemma display_flags_witness :
  stdlib_available startup
  ∧ ∃ w' ns, load startup = Ok (w', ns)
      ∧ ns !! "html_show_sourcelink" = Some (VBool true)
      ∧ ns !! "html_show_sphinx" = Some (VBool true)
      ∧ ns !! "html_theme_options" = Some (VDict [(VStr "nosidebar", VBool false)])
      ∧ (∀ x b, ns !! x = Some (VBool b) →
           x ∈ ["html_show_sourcelink"; "html_show_sphinx"; "todo_include_todos"])
      ∧ (∀ x, mentions "sidebar" x = true → ns !! x = None).
Proof.
  split; [split; reflexivity|].
  apply (display_flags startup). split; reflexivity.
Defined.




(** C10. [exclude_patterns] is the list of the three strings [_build],
    [Thumbs.db] and [.DS_Store], in this order, and none of them contains a
    character that is special in a glob pattern. *)
Theorem exclude_patterns_literal w :
  stdlib_available w →
  ∃ w' ns, load w = Ok (w', ns)
    ∧ ns !! "exclude_patterns"
      = Some (VList [VStr "_build"; VStr "Thumbs.db"; VStr ".DS_Store"])
    ∧ Forall (λ p, has_wildcard p = false) ["_build"; "Thumbs.db"; ".DS_Store"].
Proof.
  intros (w' & Hload & _)%load_stdlib. exists w', conf_record.
  split; [done|]. split; [vm_compute; reflexivity|]. repeat constructor.
Qed.

Lemma exclude_patterns_literal_witness :
  stdlib_available startup
  ∧ ∃ w' ns, load startup = Ok (w', ns)
      ∧ ns !! "exclude_patterns"
        = Some (VList [VStr "_build"; VStr "Thumbs.db"; VStr ".DS_Store"])
      ∧ Forall (λ p, has_wildcard p = false) ["_build"; "Thumbs.db"; ".DS_Store"].
Proof.
  split; [split; reflexivity|].
  apply (exclude_patterns_literal startup). split; reflexivity.
Defined.
End Flags.

Section Immutability.
Implicit Types (w : world) (ns : gmap string value) (x : string).

(** C7. Every name of the loaded record is the target of exactly one
    statement of the file, and keeps to the end of the file the value it has
    at any earlier point of the execution: wherever the file is cut in two,
    a value bound by the first part is the value in the final record. *)
Theorem options_bound_once w :
  stdlib_available w →
  ∃ w' ns, load w = Ok (w', ns)
    ∧ ∀ x, is_Some (ns !! x) →
        length (filter (λ s, target s = x) conf) = 1%nat
        ∧ ∀ (pre post : list stmt) w1 ns1 v,
            conf = (pre ++ post)%list →
            exec_prog pre (w, ∅) = Ok (w1, ns1) →
            ns1 !! x = Some v → ns !! x = Some v.
Proof.
  intros (w' & Hload & _)%load_stdlib. exists w', conf_record.
  split; [done|]. intros x Hx. split.
  - apply conf_record_names in Hx.
    simpl in Hx. rewrite !elem_of_cons, elem_of_nil in Hx.
    repeat (destruct Hx as [-> | Hx]; [by vm_compute|]). done.
  - intros pre post w1 ns1 v Hconf Hpre Hv.
    unfold load in Hload. rewrite Hconf, exec_prog_app, Hpre in Hload.
    simpl in Hload.
    destruct (exec_prog_bound pre w ∅ w1 ns1 x Hpre) as [[? He]|Hin]; [eauto| |].
    { by rewrite lookup_empty in He. }
    pose proof conf_targets_NoDup as Hnd.
    rewrite Hconf, fmap_app in Hnd. apply NoDup_app in Hnd as (_ & Hdisj & _).
    rewrite (exec_prog_lookup_notin post w1 ns1 w' conf_record x Hload); [done|].
    by apply Hdisj.
Qed.

Lemma options_bound_once_witness :
  stdlib_available startup
  ∧ ∃ w' ns, load startup = Ok (w', ns)
      ∧ ∀ x, is_Some (ns !! x) →
          length (filter (λ s, target s = x) conf) = 1%nat
          ∧ ∀ (pre post : list stmt) w1 ns1 v,
              conf = (pre ++ post)%list →
              exec_prog pre (startup, ∅) = Ok (w1, ns1) →
              ns1 !! x = Some v → ns !! x = Some v.
Proof.
  split; [split; reflexivity|].
  apply (options_bound_once startup). split; reflexivity.
Defined.

(** The execution model does let a module depend on its environment: a
    module that assigns [os.getcwd()] records the working directory of the
    interpreter that runs it. *)
Example environment_can_matter cwd :
  record_of (exec_prog [SImport "os"; SAssign "here" (ECall (EAttr (EName "os") "getcwd") [])]
               (interpreter cwd, ∅)) !! "here"
  = Some (VStr cwd).
Proof. vm_compute. reflexivity. Qed.

(** C8. Any two interpreters that have [sys] and [os] load the same record.
    No right-hand side of the file contains a name, an attribute reference
    or a call, so none reads [sys], [os] or anything else of the
    interpreter; the two imports bind the module objects to [sys] and [os],
    and every other value of the record is plain data. *)
Theorem record_env_independent w1 w2 :
  stdlib_available w1 → stdlib_available w2 →
  ∃ w1' w2' ns, load w1 = Ok (w1', ns) ∧ load w2 = Ok (w2', ns)
    ∧ forallb declarative conf = true
    ∧ ns !! "sys" = Some (VModule "sys")
    ∧ ns !! "os" = Some (VModule "os")
    ∧ ∀ x v, ns !! x = Some v → x ≠ "sys" → x ≠ "os" → is_data v = true.
Proof.
  intros H1 H2.
  destruct (load_stdlib w1 H1) as (w1' & Hload1 & _).
  pose proof (declarative_env_independent conf eq_refl w1 w2 ∅
                (stdlib_imports_ok w1 H1) (stdlib_imports_ok w2 H2)) as Hind.
  fold (load w1) in Hind. fold (load w2) in Hind. rewrite Hload1 in Hind.
  destruct (load w2) as [[w2' ns2]|] eqn:Hload2; [|done].
  injection Hind as <-.
  exists w1', w2', conf_record. split_and!; try done.
  intros x v Hx Hsys Hos.
  assert (x ∈ target <$> conf) as Hin by (apply conf_record_names; eauto).
  simpl in Hin. rewrite !elem_of_cons, elem_of_nil in Hin.
  repeat (destruct Hin as [-> | Hin];
          [first [done | by (vm_compute in Hx; injection Hx as <-)]|]).
  done.
Qed.

Lemma record_env_independent_witness :
  stdlib_available startup ∧ stdlib_available (interpreter "/tmp")
  ∧ ∃ w1' w2' ns, load startup = Ok (w1', ns)
      ∧ load (interpreter "/tmp") = Ok (w2', ns)
      ∧ forallb declarative conf = true
      ∧ ns !! "sys" = Some (VModule "sys")
      ∧ ns !! "os" = Some (VModule "os")
      ∧ ∀ x v, ns !! x = Some v → x ≠ "sys" → x ≠ "os" → is_data v = true.
Proof.
  split; [split; reflexivity|]. split; [split; reflexivity|].
  apply (record_env_independent startup (interpreter "/tmp")); split; reflexivity.
Defined.
End Immutability.

(** * The file read statement by statement *)

Section Static.
Implicit Types (w : world) (ns : gmap string value) (p q : list stmt).

Lemma static_binding_targets p : (static_binding <$> p).*1 = target <$> p.
Proof. induction p as [|s p IH]; [done|]. rewrite !fmap_cons. by f_equal. Qed.

(** A program of declarative statements binds, whatever the interpreter
    and the namespace it starts from, what each statement binds by itself. *)
Lemma exec_static p w ns :
  forallb static_ok p = true → imports_ok w p →
  ∃ w', exec_prog p (w, ns) = Ok (w', bind_all ns (static_binding <$> p)).
Proof.
  revert w ns. induction p as [|s p IH]; intros w ns Hok Hw; [by eexists|].
  simpl in Hok. apply andb_prop in Hok as [Hs Hp].
  rewrite exec_prog_cons. unfold static_ok in Hs. apply andb_prop in Hs as [Hd Hv].
  destruct s as [m|x e]; simpl.
  - destruct (import_module_available w m) as [w1 E1]; [apply Hw; left|].
    rewrite E1. simpl. apply IH; [done|].
    intros m' Hm'. eapply module_available_import; [done|]. apply Hw. by right.
  - simpl in Hd. rewrite (eval_literal e Hd w ns startup ∅).
    unfold static_binding. simpl in Hv |- *.
    destruct (eval startup ∅ e) as [v|]; [|done]. simpl. apply IH; [done|].
    intros m' Hm'. apply Hw. by right.
Qed.

Lemma bind_all_union ns (items : list (string * value)) :
  bind_all ns items = list_to_map (reverse items) ∪ ns.
Proof.
  revert ns. induction items as [|[k v] items IH]; intros ns.
  - simpl. by rewrite (left_id_L ∅ (∪)).
  - change (bind_all ns ((k, v) :: items)) with (bind_all (<[k:=v]> ns) items).
    rewrite IH, reverse_cons, list_to_map_app. simpl.
    rewrite <-(assoc_L (∪)). f_equal.
    by rewrite <-insert_union_l, (left_id_L ∅ (∪)).
Qed.

Lemma bind_all_NoDup ns (items : list (string * value)) :
  NoDup items.*1 → bind_all ns items = list_to_map items ∪ ns.
Proof.
  intros Hnd. rewrite bind_all_union. f_equal.
  apply list_to_map_proper; [|apply reverse_Permutation].
  by rewrite fmap_reverse, reverse_Permutation.
Qed.

Lemma conf_static_ok : forallb static_ok conf = true.
Proof. vm_compute. reflexivity. Qed.

Lemma conf_record_static : conf_record = list_to_map (static_binding <$> conf).
Proof. vm_compute. reflexivity. Qed.

Lemma conf_bindings_NoDup : NoDup (static_binding <$> conf).*1.
Proof. rewrite static_binding_targets. apply conf_targets_NoDup. Qed.
End Static.

(** * Loading: failure, footprint and composition *)

Section Outcome.
Implicit Types (w : world) (ns : gmap string value) (p q : list stmt).

Lemma import_module_unavailable w m :
  module_available w m = false → import_module m w = Raise (ImportError m).
Proof.
  unfold module_available, import_module.
  intros H. apply orb_false_elim in H as [H1 H2]. by rewrite H1, H2.
Qed.

Lemma import_module_Ok_available w m w' :
  import_module m w = Ok w' → module_available w m = true.
Proof.
  unfold module_available, import_module.
  destruct (bool_decide (m ∈ sys_modules w)); [done|].
  by destruct (importable w m).
Qed.

Lemma import_module_other w m w' m' :
  import_module m w = Ok w' → m' ≠ m →
  module_available w' m' = module_available w m'.
Proof.
  unfold import_module, module_available. intros H Hne.
  destruct (bool_decide (m ∈ sys_modules w)); [by simplify_eq|].
  destruct (importable w m); [|done]. simplify_eq. simpl.
  f_equal. apply bool_decide_ext. rewrite elem_of_app, list_elem_of_singleton.
  intuition congruence.
Qed.


(** X1. Loading succeeds exactly in the interpreters that can import [sys]
    and [os]; where [sys] cannot be imported it raises [ImportError] for
    [sys], and where [sys] can but [os] cannot it raises [ImportError] for
    [os]. *)
Theorem load_outcome w :
  (stdlib_available w ↔ ∃ w' ns, load w = Ok (w', ns))
  ∧ (module_available w "sys" = false → load w = Raise (ImportError "sys"))
  ∧ (module_available w "sys" = true → module_available w "os" = false →
     load w = Raise (ImportError "os")).
Proof.
  split_and!.
  - split.
    + intros (w' & Hload & _)%load_stdlib. eauto.
    + intros (w' & ns & (w1 & E1 & E2 & _)%load_inv). split.
      * by apply (import_module_Ok_available w "sys" w1).
      * rewrite <-(import_module_other w "sys" w1 "os" E1) by done.
        by apply (import_module_Ok_available w1 "os" w').
  - intros Hsys. unfold load, conf. rewrite exec_prog_cons. unfold exec at 1.
    by rewrite (import_module_unavailable w "sys" Hsys).
  - intros Hsys Hos.
    destruct (import_module_available w "sys" Hsys) as [w1 E1].
    unfold load, conf. rewrite exec_prog_cons. unfold exec at 1. rewrite E1.
    unfold bind at 2. unfold bind at 1. rewrite exec_prog_cons. unfold exec at 1.
    rewrite (import_module_unavailable w1 "os"); [done|].
    by rewrite (import_module_other w "sys" w1 "os" E1).
Qed.


End Outcome.

Section Composition.
Implicit Types (w : world) (ns : gmap string value) (p q : list stmt).

Lemma NoDup_fmap_elem_inj {A B} (f : A → B) (l : list A) x y :
  NoDup (f <$> l) → x ∈ l → y ∈ l → f x = f y → x = y.
Proof.
  induction l as [|a l IH]; [by intros _ ?%elem_of_nil|].
  rewrite fmap_cons, NoDup_cons. intros [Ha Hl].
  intros [->|Hx]%elem_of_cons [->|Hy]%elem_of_cons Hf; auto.
  - destruct Ha. rewrite Hf. by apply list_elem_of_fmap_2.
  - destruct Ha. rewrite <-Hf. by apply list_elem_of_fmap_2.
Qed.

Lemma static_ok_elem p s : forallb static_ok p = true → s ∈ p → static_ok s = true.
Proof.
  intros Hp Hs. eapply forallb_forall in Hp; [done|]. by apply list_elem_of_In.
Qed.

Lemma static_ok_forall p :
  (∀ s, s ∈ p → static_ok s = true) → forallb static_ok p = true.
Proof.
  intros H. apply forallb_forall. intros s Hs. apply H. by apply list_elem_of_In.
Qed.

(** The interpreter a program leaves behind does not depend on the
    namespace the program starts from. *)
Lemma exec_prog_world_any_namespace p w ns1 ns2 w1 w2 r1 r2 :
  exec_prog p (w, ns1) = Ok (w1, r1) → exec_prog p (w, ns2) = Ok (w2, r2) →
  w1 = w2.
Proof.
  revert w ns1 ns2. induction p as [|s p IH]; intros w ns1 ns2.
  - by intros [= <- _] [= <- _].
  - rewrite !exec_prog_cons. destruct s as [m|x e]; simpl.
    + destruct (import_module m w) as [w'|]; [|done]. simpl. apply IH.
    + destruct (eval w ns1 e); [|done]. destruct (eval w ns2 e); [|done].
      simpl. apply IH.
Qed.

(** X3. Executed in a namespace that holds bindings already, as the
    documentation builder does, the file gives the record it gives in an
    empty namespace laid over those bindings: a name the file binds gets the
    file's value, every other name keeps the value it had. *)
Theorem load_into_namespace w ns0 :
  stdlib_available w →
  ∃ w' r ns, load w = Ok (w', r) ∧ exec_prog conf (w, ns0) = Ok (w', ns)
    ∧ ns = r ∪ ns0
    ∧ (∀ x, x ∈ target <$> conf → ns !! x = r !! x)
    ∧ (∀ x, x ∉ target <$> conf → ns !! x = ns0 !! x).
Proof.
  intros Hw. destruct (load_stdlib w Hw) as (w' & Hload & _).
  destruct (exec_static conf w ns0 conf_static_ok (stdlib_imports_ok w Hw))
    as (w2 & Hexec).
  rewrite (bind_all_NoDup _ _ conf_bindings_NoDup), <-conf_record_static in Hexec.
  assert (w2 = w') as ->
    by apply (exec_prog_world_any_namespace conf w _ _ _ _ _ _ Hexec Hload).
  exists w', conf_record, (conf_record ∪ ns0). split_and!; try done.
  - intros x Hx. rewrite lookup_union.
    assert (is_Some (conf_record !! x)) as [v Hv].
    { apply elem_of_dom. rewrite conf_record_dom. by apply elem_of_list_to_set. }
    rewrite Hv. by destruct (ns0 !! x).
  - intros x Hx. rewrite lookup_union.
    destruct (conf_record !! x) as [v|] eqn:Hv.
    + destruct Hx. apply conf_record_names. eauto.
    + by destruct (ns0 !! x).
Qed.

Lemma load_into_namespace_witness :
  stdlib_available startup
  ∧ ∃ w' r ns, load startup = Ok (w', r)
      ∧ exec_prog conf (startup, {["tags" := VNone]}) = Ok (w', ns)
      ∧ ns = r ∪ {["tags" := VNone]}
      ∧ (∀ x, x ∈ target <$> conf → ns !! x = r !! x)
      ∧ (∀ x, x ∉ target <$> conf →
           ns !! x = ({["tags" := VNone]} : gmap string value) !! x).
Proof.
  split; [split; reflexivity|].
  apply (load_into_namespace startup {["tags" := VNone]}). split; reflexivity.
Defined.

(** X4. The statements of the file do not depend on each other: executed
    in any other order they load the same record. *)
Theorem load_order_independent w p :
  p ≡ₚ conf → stdlib_available w →
  ∃ w1 w2 r, load w = Ok (w1, r) ∧ exec_prog p (w, ∅) = Ok (w2, r).
Proof.
  intros Hp Hw. destruct (load_stdlib w Hw) as (w1 & Hload & _).
  assert (forallb static_ok p = true) as Hok.
  { apply static_ok_forall. intros s Hs. apply (static_ok_elem conf s conf_static_ok).
    by rewrite <-Hp. }
  assert (imports_ok w p) as Himp.
  { intros m Hm. apply (stdlib_imports_ok w Hw). by rewrite <-Hp. }
  destruct (exec_static p w ∅ Hok Himp) as (w2 & Hexec).
  exists w1, w2, conf_record. split; [done|]. rewrite Hexec. do 2 f_equal.
  rewrite bind_all_NoDup, (right_id_L ∅ (∪)), conf_record_static.
  - apply list_to_map_proper; [|by rewrite Hp].
    rewrite static_binding_targets, Hp. apply conf_targets_NoDup.
  - rewrite static_binding_targets, Hp. apply conf_targets_NoDup.
Qed.

Lemma load_order_independent_witness :
  reverse conf ≡ₚ conf ∧ stdlib_available startup
  ∧ ∃ w1 w2 r, load startup = Ok (w1, r)
      ∧ exec_prog (reverse conf) (startup, ∅) = Ok (w2, r).
Proof.
  split; [apply reverse_Permutation|]. split; [split; reflexivity|].
  apply (load_order_independent startup (reverse conf));
    [apply reverse_Permutation|split; reflexivity].
Defined.

(** X5. Taking statements out of the file takes their bindings out of the
    record and changes nothing else: what is left of the file loads,
    wherever the imports left in it can be had, the record restricted to the
    names it still binds; with no import left it loads in every interpreter
    and leaves the interpreter as it found it. *)
Theorem load_statements_removed w q :
  q `sublist_of` conf → imports_ok w q →
  ∃ w', exec_prog q (w, ∅)
        = Ok (w', filter (λ kv, kv.1 ∈ target <$> q) conf_record)
    ∧ ((∀ m, SImport m ∉ q) → w' = w).
Proof.
  intros Hq Hw.
  assert (forallb static_ok q = true) as Hok.
  { apply static_ok_forall. intros s Hs. apply (static_ok_elem conf s conf_static_ok).
    by apply (elem_of_sublist q). }
  assert (NoDup (target <$> q)) as Hnd.
  { apply (sublist_NoDup _ (target <$> conf)); [apply conf_targets_NoDup|].
    by apply (fmap_sublist target). }
  destruct (exec_static q w ∅ Hok Hw) as (w' & Hexec).
  exists w'. split.
  - rewrite Hexec. do 2 f_equal.
    rewrite bind_all_NoDup, (right_id_L ∅ (∪)) by by rewrite static_binding_targets.
    apply map_eq. intros k. apply option_eq. intros v.
    rewrite <-elem_of_list_to_map by by rewrite static_binding_targets.
    rewrite map_lookup_filter_Some, conf_record_static.
    rewrite <-elem_of_list_to_map by apply conf_bindings_NoDup.
    rewrite !list_elem_of_fmap. simpl. split.
    + intros (s & Hs & Hin). split.
      * exists s. split; [done|]. by apply (elem_of_sublist q).
      * exists s. split; [|done]. by injection Hs.
    + intros [(s & Hs & Hin) (s' & Hk & Hin')].
      exists s'. split; [|done]. rewrite Hs. f_equal.
      apply (NoDup_fmap_elem_inj target conf); [apply conf_targets_NoDup|done| |].
      * by apply (elem_of_sublist q).
      * injection Hs as -> _. done.
  - intros Hno. eapply exec_prog_world; [|exact Hexec].
    intros m Hm. by destruct (Hno m).
Qed.

Lemma load_statements_removed_witness :
  drop 2 conf `sublist_of` conf ∧ imports_ok (interpreter "/tmp") (drop 2 conf)
  ∧ ∃ w', exec_prog (drop 2 conf) (interpreter "/tmp", ∅)
          = Ok (w', filter (λ kv, kv.1 ∈ target <$> drop 2 conf) conf_record)
      ∧ ((∀ m, SImport m ∉ drop 2 conf) → w' = interpreter "/tmp").
Proof.
  assert (imports_ok (interpreter "/tmp") (drop 2 conf)) as Himp.
  { intros m. simpl. rewrite !elem_of_cons, elem_of_nil.
    intros H. repeat (destruct H as [[=]|H]). done. }
  split; [apply sublist_drop|]. split; [exact Himp|].
  apply (load_statements_removed (interpreter "/tmp") (drop 2 conf));
    [apply sublist_drop|exact Himp].
Defined.
End Composition.

(** * The rest of the record *)

Section Contents.
Implicit Types (w : world) (ns : gmap string value) (x : string).

(** The record the file gives in a namespace that holds bindings
    already. *)
Lemma exec_conf_union w ns0 :
  stdlib_available w →
  ∃ w', exec_prog conf (w, ns0) = Ok (w', conf_record ∪ ns0).
Proof.
  intros Hw.
  destruct (exec_static conf w ns0 conf_static_ok (stdlib_imports_ok w Hw))
    as (w' & Hexec).
  rewrite (bind_all_NoDup _ _ conf_bindings_NoDup), <-conf_record_static in Hexec.
  eauto.
Qed.

(** X6. Whatever names the namespace holds when the file is executed
    (the documentation builder and the interpreter put some there), the
    names it holds afterwards are those, [sys], [os] and the sixteen
    recognized option names: each recognized option is set, and the file
    binds nothing else. *)
Theorem record_names w ns0 :
  stdlib_available w →
  ∃ w' ns, exec_prog conf (w, ns0) = Ok (w', ns)
    ∧ ∀ x, is_Some (ns !! x)
           ↔ is_Some (ns0 !! x) ∨ x = "sys" ∨ x = "os" ∨ x ∈ recognized_options.
Proof.
  intros (w' & Hexec)%(exec_conf_union w ns0). exists w', (conf_record ∪ ns0).
  split; [done|]. intros x.
  rewrite <-!elem_of_dom, dom_union_L, elem_of_union, conf_record_dom.
  rewrite elem_of_list_to_set.
  unfold recognized_options. simpl. rewrite !elem_of_cons, !elem_of_nil. tauto.
Qed.

Lemma record_names_witness :
  stdlib_available startup
  ∧ ∃ w' ns,
      exec_prog conf
        (startup, {["__builtins__" := VModule "builtins"; "tags" := VNone]})
      = Ok (w', ns)
      ∧ ∀ x, is_Some (ns !! x)
             ↔ is_Some (({["__builtins__" := VModule "builtins"; "tags" := VNone]}
                          : gmap string value) !! x)
               ∨ x = "sys" ∨ x = "os" ∨ x ∈ recognized_options.
Proof.
  split; [split; reflexivity|].
  apply (record_names startup
           {["__builtins__" := VModule "builtins"; "tags" := VNone]}).
  split; reflexivity.
Defined.

(** X7. The metadata and the two presentation choices are text: the
    project is [C++ Contracts Documentation], the copyright notice
    [2025, EFCS LLC], the author [Eric Fiselier], the release the string
    [1.0]; highlighting uses the style [friendly] and pages the theme
    [haiku]. *)
Theorem metadata_and_presentation w :
  stdlib_available w →
  ∃ w' ns, load w = Ok (w', ns)
    ∧ ns !! "project" = Some (VStr "C++ Contracts Documentation")
    ∧ ns !! "copyright" = Some (VStr "2025, EFCS LLC")
    ∧ ns !! "author" = Some (VStr "Eric Fiselier")
    ∧ ns !! "release" = Some (VStr "1.0")
    ∧ ns !! "pygments_style" = Some (VStr "friendly")
    ∧ ns !! "html_theme" = Some (VStr "haiku").
Proof.
  intros (w' & Hload & _)%load_stdlib. exists w', conf_record.
  split; [done|]. split_and!; vm_compute; reflexivity.
Qed.

Lemma metadata_and_presentation_witness :
  stdlib_available startup
  ∧ ∃ w' ns, load startup = Ok (w', ns)
      ∧ ns !! "project" = Some (VStr "C++ Contracts Documentation")
      ∧ ns !! "copyright" = Some (VStr "2025, EFCS LLC")
      ∧ ns !! "author" = Some (VStr "Eric Fiselier")
      ∧ ns !! "release" = Some (VStr "1.0")
      ∧ ns !! "pygments_style" = Some (VStr "friendly")
      ∧ ns !! "html_theme" = Some (VStr "haiku").
Proof.
  split; [split; reflexivity|].
  apply (metadata_and_presentation startup). split; reflexivity.
Defined.

Example short_name_cases :
  short_name "sphinx.ext.todo" = "todo" ∧ short_name "todo" = "todo"
  ∧ option_of_extension "sphinx.ext.todo" "todo_include_todos" = true
  ∧ option_of_extension "sphinx.ext.todo" "intersphinx_mapping" = false.
Proof. done. Qed.

(** X8. Every extension the file enables is also configured: for each
    module path in [extensions] the record has an option whose name starts
    with the short name of that extension; and [todo_include_todos] is
    [True], so the enabled TODO pass produces output. *)
Theorem extensions_configured w :
  stdlib_available w →
  ∃ w' ns exts, load w = Ok (w', ns)
    ∧ ns !! "extensions" = Some (VList (VStr <$> exts))
    ∧ Forall (λ e, ∃ x, is_Some (ns !! x) ∧ option_of_extension e x = true) exts
    ∧ ns !! "todo_include_todos" = Some (VBool true).
Proof.
  intros (w' & Hload & _)%load_stdlib.
  exists w', conf_record, ["sphinx.ext.intersphinx"; "sphinx.ext.todo"].
  split; [done|]. split_and!; [vm_compute; reflexivity| |vm_compute; reflexivity].
  repeat apply Forall_cons_2; [| |apply Forall_nil_2].
  - exists "intersphinx_mapping". split; [vm_compute; eauto|done].
  - exists "todo_include_todos". split; [vm_compute; eauto|done].
Qed.

Lemma extensions_configured_witness :
  stdlib_available startup
  ∧ ∃ w' ns exts, load startup = Ok (w', ns)
      ∧ ns !! "extensions" = Some (VList (VStr <$> exts))
      ∧ Forall (λ e, ∃ x, is_Some (ns !! x) ∧ option_of_extension e x = true) exts
      ∧ ns !! "todo_include_todos" = Some (VBool true).
Proof.
  split; [split; reflexivity|].
  apply (extensions_configured startup). split; reflexivity.
Defined.

(** X9. No display of the file repeats itself: a list option has as many
    elements as its display has items, all distinct strings, and a mapping
    option has as many entries as its display has items, under distinct
    string keys, so that no item written in the file is lost to a later one
    with the same key. *)
Theorem displays_without_repetition w :
  stdlib_available w →
  ∃ w' ns, load w = Ok (w', ns)
    ∧ Forall (λ s,
        match s with
        | SAssign x (EList es) =>
            ∃ ss : list string, ns !! x = Some (VList (VStr <$> ss))
              ∧ length ss = length es ∧ NoDup ss
        | SAssign x (EDict items) =>
            ∃ (d : list (value * value)) (ks : list string),
              ns !! x = Some (VDict d) ∧ d.*1 = VStr <$> ks
              ∧ length d = length items ∧ NoDup ks
        | _ => True
        end) conf.
Proof.
  intros (w' & Hload & _)%load_stdlib. exists w', conf_record.
  split; [done|].
  assert (∀ ss : list string, bool_decide (NoDup ss) = true → NoDup ss) as Hnd
    by (intros ss; apply bool_decide_eq_true_1).
  unfold conf. repeat apply Forall_cons_2; try exact I; [..|apply Forall_nil_2].
  - exists ["sphinx.ext.intersphinx"; "sphinx.ext.todo"].
    split_and!; [vm_compute; reflexivity|done|by apply Hnd].
  - exists ["_templates"].
    split_and!; [vm_compute; reflexivity|done|by apply Hnd].
  - exists ["_build"; "Thumbs.db"; ".DS_Store"].
    split_and!; [vm_compute; reflexivity|done|by apply Hnd].
  - exists ["_static"].
    split_and!; [vm_compute; reflexivity|done|by apply Hnd].
  - exists [(VStr "nosidebar", VBool false)], ["nosidebar"].
    split_and!; [vm_compute; reflexivity|done|done|by apply Hnd].
  - exists ["_themes"].
    split_and!; [vm_compute; reflexivity|done|by apply Hnd].
  - exists [(VStr "python", VTuple [VStr "https://docs.python.org/3/"; VNone]);
            (VStr "llvm", VTuple [VStr "https://llvm.org/docs/"; VNone])],
      ["python"; "llvm"].
    split_and!; [vm_compute; reflexivity|done|done|by apply Hnd].
Qed.

Lemma displays_without_repetition_witness :
  stdlib_available startup
  ∧ ∃ w' ns, load startup = Ok (w', ns)
      ∧ Forall (λ s,
          match s with
          | SAssign x (EList es) =>
              ∃ ss : list string, ns !! x = Some (VList (VStr <$> ss))
                ∧ length ss = length es ∧ NoDup ss
          | SAssign x (EDict items) =>
              ∃ (d : list (value * value)) (ks : list string),
                ns !! x = Some (VDict d) ∧ d.*1 = VStr <$> ks
                ∧ length d = length items ∧ NoDup ks
          | _ => True
          end) conf.
Proof.
  split; [split; reflexivity|].
  apply (displays_without_repetition startup). split; reflexivity.
Defined.

(** X10. Whatever the namespace holds when the file is executed, each of
    the sixteen options is afterwards bound to text, a flag, a list of
    text, or a mapping from text to flags or to pairs of text and [None]. *)
Theorem option_values_shaped w ns0 :
  stdlib_available w →
  ∃ w' ns, exec_prog conf (w, ns0) = Ok (w', ns)
    ∧ Forall (λ x, ∃ v, ns !! x = Some v ∧ option_shaped v = true)
        recognized_options.
Proof.
  intros (w' & Hexec)%(exec_conf_union w ns0). exists w', (conf_record ∪ ns0).
  split; [done|].
  assert (∀ x v, conf_record !! x = Some v → option_shaped v = true →
            ∃ v, (conf_record ∪ ns0) !! x = Some v ∧ option_shaped v = true) as H.
  { intros x v Hx Hv. exists v. split; [|done]. by apply lookup_union_Some_l. }
  unfold recognized_options.
  repeat apply Forall_cons_2; [..|apply Forall_nil_2];
    (eapply H; [vm_compute; reflexivity|reflexivity]).
Qed.

Lemma option_values_shaped_witness :
  stdlib_available startup
  ∧ ∃ w' ns,
      exec_prog conf
        (startup, {["__builtins__" := VModule "builtins"; "tags" := VNone]})
      = Ok (w', ns)
      ∧ Forall (λ x, ∃ v, ns !! x = Some v ∧ option_shaped v = true)
          recognized_options.
Proof.
  split; [split; reflexivity|].
  apply (option_values_shaped startup
           {["__builtins__" := VModule "builtins"; "tags" := VNone]}).
  split; reflexivity.
Defined.
End Contents.
